(** * NDLNoise: the sentence classifier (Sentence.py) and the experiment
      driver (main.py), embedded shallowly in Rocq. *)

From Stdlib Require Import String Ascii List ZArith QArith Lia Sumbool.
Import ListNotations.
Open Scope Z_scope.

(* ------------------------------------------------------------------ *)
(** ** Python string helpers *)

Module Py.

(** Characters for which [str.isspace] holds in the ASCII range: these
    are the separators of [str.split()] with no argument. *)
Definition is_space (c : ascii) : bool :=
  let n := nat_of_ascii c in
  (Nat.eqb n 32 || ((9 <=? n) && (n <=? 13)) || ((28 <=? n) && (n <=? 31)))%nat.

(** [str.split()]: split on runs of whitespace, dropping empty pieces.
    [cur] holds the characters of the current word, reversed. *)
Fixpoint split_go (s : string) (cur : list ascii) : list string :=
  match s with
  | EmptyString =>
      match cur with
      | [] => []
      | _ => [string_of_list_ascii (rev cur)]
      end
  | String c s' =>
      if is_space c then
        match cur with
        | [] => split_go s' []
        | _ => string_of_list_ascii (rev cur) :: split_go s' []
        end
      else split_go s' (c :: cur)
  end.

Definition split (s : string) : list string := split_go s [].

Fixpoint is_prefix (p s : string) : bool :=
  match p, s with
  | EmptyString, _ => true
  | String a p', String b s' => Ascii.eqb a b && is_prefix p' s'
  | String _ _, EmptyString => false
  end.

(** [key in word]: substring containment. *)
Fixpoint contains (key word : string) : bool :=
  is_prefix key word ||
  match word with
  | EmptyString => false
  | String _ w' => contains key w'
  end.

(** [lst.index(x)]: position of the first element equal to [x];
    [None] stands for the [ValueError] raised when there is none. *)
Fixpoint list_index (lst : list string) (x : string) : option nat :=
  match lst with
  | [] => None
  | y :: ys =>
      if String.eqb y x then Some 0%nat
      else option_map S (list_index ys x)
  end.

End Py.

(* ------------------------------------------------------------------ *)
(** ** Sentence.py *)

Module Sentence.

(** The fields a [Sentence] object holds after [__init__]
    ([triggers] is always the empty dict and plays no part here). *)
Record Sentence := mkSentence {
  language : string;
  inflection : string;
  sentenceStr : string;
  sentenceList : list string;
  _outOblique : bool
}.

(** The [for word in self.sentenceList] loop of [indexString(self, key)]:
    at the first word that contains [key] it returns
    [self.sentenceList.index(word)], searched over the whole list. *)
Fixpoint indexString_loop (sentenceList : list string) (key : string)
    (ws : list string) : option Z :=
  match ws with
  | [] => Some (-1)
  | word :: ws' =>
      if Py.contains key word then
        option_map Z.of_nat (Py.list_index sentenceList word)
      else indexString_loop sentenceList key ws'
  end.

(** [indexString(self, key)]. *)
Definition indexString (sentenceList : list string) (key : string) : option Z :=
  indexString_loop sentenceList key sentenceList.

(** The two canonical conditions of [__init__] (Python chained
    comparisons [a < b < c] read as [a < b and b < c]). *)
Definition condA (O1index O2index Pindex O3index : Z) : bool :=
  negb (O1index =? -1) && (O1index <? O2index) && (O2index <? Pindex)
  && (O3index =? Pindex + 1).

Definition condB (O1index O2index Pindex O3index : Z) : bool :=
  negb (O3index =? -1) && (O3index <? O2index) && (O2index <? O1index)
  && (Pindex =? O3index + 1).

Definition allPresent (O1index O2index Pindex O3index : Z) : bool :=
  negb (O1index =? -1) && negb (O2index =? -1) && negb (Pindex =? -1)
  && negb (O3index =? -1).

(** The if/elif chain on [self._outOblique], which starts at [False]. *)
Definition outOblique_of (O1index O2index Pindex O3index : Z) : bool :=
  let out := false in
  if condA O1index O2index Pindex O3index then false
  else if condB O1index O2index Pindex O3index then false
  else if allPresent O1index O2index Pindex O3index then true
  else out.

(** [Sentence.__init__(self, infoList)] on a three-element [infoList];
    [None] is an exception escaping the constructor. *)
Definition init (infoList : string * string * string) : option Sentence :=
  let '(lang, infl, str) := infoList in
  let sentenceList := Py.split str in
  match indexString sentenceList "O1", indexString sentenceList "O2",
        indexString sentenceList "P", indexString sentenceList "O3" with
  | Some O1index, Some O2index, Some Pindex, Some O3index =>
      Some (mkSentence lang infl str sentenceList
              (outOblique_of O1index O2index Pindex O3index))
  | _, _, _, _ => None
  end.

(** [outOblique(self)]. *)
Definition outOblique (s : Sentence) : bool := _outOblique s.

(** The marker lookup as the spec words it: the position of the first
    token containing [key], or -1 when none does. *)
Fixpoint first_containing (key : string) (toks : list string) : Z :=
  match toks with
  | [] => -1
  | w :: ws =>
      if Py.contains key w then 0
      else let r := first_containing key ws in if r =? -1 then -1 else r + 1
  end.

(** The decision policy as the spec words it. *)
Definition spec_policy (O1 O2 P O3 : Z) : bool :=
  if Sumbool.sumbool_and _ _ _ _ (sumbool_not _ _ (Z.eq_dec O1 (-1)))
       (Sumbool.sumbool_and _ _ _ _ (Z_lt_dec O1 O2)
          (Sumbool.sumbool_and _ _ _ _ (Z_lt_dec O2 P) (Z.eq_dec O3 (P + 1))))
  then false
  else if Sumbool.sumbool_and _ _ _ _ (sumbool_not _ _ (Z.eq_dec O3 (-1)))
       (Sumbool.sumbool_and _ _ _ _ (Z_lt_dec O3 O2)
          (Sumbool.sumbool_and _ _ _ _ (Z_lt_dec O2 O1) (Z.eq_dec P (O3 + 1))))
  then false
  else if Sumbool.sumbool_and _ _ _ _ (sumbool_not _ _ (Z.eq_dec O1 (-1)))
       (Sumbool.sumbool_and _ _ _ _ (sumbool_not _ _ (Z.eq_dec O2 (-1)))
          (Sumbool.sumbool_and _ _ _ _ (sumbool_not _ _ (Z.eq_dec P (-1)))
             (sumbool_not _ _ (Z.eq_dec O3 (-1)))))
  then true
  else false.

End Sentence.

(* ------------------------------------------------------------------ *)
(** ** main.py *)

Module Main.

Record ExperimentParameters := mkExperimentParameters {
  languages : list Z;
  noise_levels : list Q;
  learningrate : Q;
  conservative_learningrate : Q;
  num_sentences : Z;
  num_echildren : Z;
  num_procs : Z
}.

(** [TrialParameters], with its fields in declaration order. *)
Record TrialParameters := mkTrialParameters {
  language : Z;
  noise : Q;
  rate : Q;
  conservativerate : Q;
  numberofsentences : Z
}.

(** The generator expression [trials] of [run_simulations]: languages
    outermost, then noise levels, then [range(params.num_echildren)]. *)
Definition trials (params : ExperimentParameters) : list TrialParameters :=
  flat_map (fun lang =>
    flat_map (fun noise =>
      map (fun _ : nat =>
             mkTrialParameters lang noise (learningrate params)
               (conservative_learningrate params) (num_sentences params))
          (seq 0 (Z.to_nat (num_echildren params))))
      (noise_levels params))
    (languages params).

(** [num_trials] of [run_simulations], the total given to the progress
    bar. *)
Definition num_trials (params : ExperimentParameters) : Z :=
  num_echildren params * Z.of_nat (length (languages params))
  * Z.of_nat (length (noise_levels params)).

(** [Language]: the grammar ids of the four target languages. *)
Definition English : Z := 611.
Definition French : Z := 584.
Definition German : Z := 2253.
Definition Japanese : Z := 3856.

(** Python values stored in a result dictionary (datetimes and
    timedeltas as microsecond counts). *)
Inductive PyVal :=
| PInt (z : Z)
| PFloat (q : Q)
| PStr (s : string)
| PDatetime (t : Z)
| PTimedelta (d : Z).

(** A Python dict: keys in insertion order, one entry per key. *)
Definition dict := list (string * PyVal).

(** [d[k] = v]: an existing key keeps its place, a new key goes last. *)
Fixpoint dict_set (d : dict) (k : string) (v : PyVal) : dict :=
  match d with
  | [] => [(k, v)]
  | (k', v') :: d' =>
      if String.eqb k' k then (k', v) :: d' else (k', v') :: dict_set d' k v
  end.

(** [{**d, **e}] / [d.update(e)]. *)
Definition dict_update (d e : dict) : dict :=
  fold_left (fun acc kv => dict_set acc (fst kv) (snd kv)) e d.

Fixpoint dict_get (d : dict) (k : string) : option PyVal :=
  match d with
  | [] => None
  | (k', v) :: d' => if String.eqb k' k then Some v else dict_get d' k
  end.

(** [dataclasses.asdict(params)]. *)
Definition asdict (p : TrialParameters) : dict :=
  [("language", PInt (language p)); ("noise", PFloat (noise p));
   ("rate", PFloat (rate p)); ("conservativerate", PFloat (conservativerate p));
   ("numberofsentences", PInt (numberofsentences p))]%string.

(** Exceptions that can escape a trial. *)
Inductive PyExn :=
| LanguageNotFound
| OtherExn (name : string).

Inductive Exc (A : Type) :=
| Ok (a : A)
| Raise (e : PyExn).
Arguments Ok {A} a.
Arguments Raise {A} e.

(** The interpreter-level effects the trial code uses: [random.random]
    and [datetime.now] (in microseconds), on an opaque world state. *)
Class Runtime (World : Type) := {
  random : World -> Q * World;
  datetime_now : World -> Z * World
}.

(** The corpus collaborator [DOMAIN] (domain.py, a [ColagDomain]). *)
Class Domain (World : Type) := {
  get_sentence_in_language : Z -> World -> Exc Sentence.Sentence * World;
  get_sentence_not_in_language : Z -> World -> Exc Sentence.Sentence * World
}.

(** The learner collaborator [InstrumentedNDChild]. *)
Class Learner (Child : Type) := {
  InstrumentedNDChild : Q -> Q -> Z -> Child;
  consumeSentence : Child -> Sentence.Sentence -> Child;
  target_language : Child -> PyVal;
  grammar : Child -> dict
}.

(** Which [DOMAIN] sampling method was called, with its [grammar_id]. *)
Inductive DomainCall :=
| CallInLanguage (grammar_id : Z)
| CallNotInLanguage (grammar_id : Z).

(** The state threaded through a trial: the world, and a log of the
    [DOMAIN] sampling calls made so far (instrumentation only). *)
Record St (World : Type) := mkSt { world : World; calls : list DomainCall }.
Arguments mkSt {World} world calls.
Arguments world {World} s.
Arguments calls {World} s.

(** State and exception monad: an exception carries the state reached. *)
Definition M (World A : Type) := St World -> Exc A * St World.

Definition ret {World A} (a : A) : M World A := fun st => (Ok a, st).

Definition bind {World A B} (m : M World A) (k : A -> M World B) : M World B :=
  fun st =>
    match m st with
    | (Ok a, st') => k a st'
    | (Raise e, st') => (Raise e, st')
    end.

Notation "x <- m ;; k" := (bind m (fun x => k))
  (at level 61, m at next level, right associativity).

(** [a < b] on floats; they are rationals, so compared exactly in [Q]. *)
Definition Qltb (a b : Q) : bool := negb (Qle_bool b a).

Section Trial.
Context {World Child : Type} `{Runtime World} `{Domain World} `{Learner Child}.

Definition py_random : M World Q :=
  fun st => let (u, w) := random (world st) in (Ok u, mkSt w (calls st)).

Definition py_now : M World Z :=
  fun st => let (t, w) := datetime_now (world st) in (Ok t, mkSt w (calls st)).

(** A call of a [DOMAIN] sampling method, logged on entry. *)
Definition domain_call (c : DomainCall)
    (f : World -> Exc Sentence.Sentence * World) : M World Sentence.Sentence :=
  fun st => let (r, w) := f (world st) in (r, mkSt w (calls st ++ [c])).

Definition DOMAIN_get_sentence_in_language (grammar_id : Z) :=
  domain_call (CallInLanguage grammar_id) (get_sentence_in_language grammar_id).

Definition DOMAIN_get_sentence_not_in_language (grammar_id : Z) :=
  domain_call (CallNotInLanguage grammar_id)
    (get_sentence_not_in_language grammar_id).

(** The [for i in range(numberofsentences)] loop of [run_child]. *)
Fixpoint run_child_loop (language : Z) (noise : Q) (n : nat) (aChild : Child)
    : M World Child :=
  match n with
  | O => ret aChild
  | S n' =>
      u <- py_random ;;
      s <- (if Qltb u noise
            then DOMAIN_get_sentence_not_in_language language
            else DOMAIN_get_sentence_in_language language) ;;
      run_child_loop language noise n' (consumeSentence aChild s)
  end.

Definition run_child (language : Z) (noise rate conservativerate : Q)
    (numberofsentences : Z) : M World Child :=
  let aChild := InstrumentedNDChild rate conservativerate language in
  run_child_loop language noise (Z.to_nat numberofsentences) aChild.

(** [run_trial(params)]: the result is the dict literal
    [{'timestamp': now, 'duration': now - then,
      'language': child.target_language, **child.grammar, **params}]. *)
Definition run_trial (params : TrialParameters) : M World dict :=
  let p := asdict params in
  then_ <- py_now ;;
  child <- run_child (language params) (noise params) (rate params)
             (conservativerate params) (numberofsentences params) ;;
  now <- py_now ;;
  ret (dict_update
         (dict_update
            (dict_update []
               [("timestamp", PDatetime now); ("duration", PTimedelta (now - then_));
                ("language", target_language child)]%string)
            (grammar child))
         p).

End Trial.

End Main.

(* ------------------------------------------------------------------ *)
(** ** main.py: command line *)

Module Cli.

(** [ExperimentDefaults]; the decimal literals are written as the
    rationals they denote (float rounding of 0.9, 0.05, ... is not
    modelled, nothing below depends on it). *)
Definition default_rate : Q := 9 # 10.
Definition default_conservativerate : Q := 5 # 10000.
Definition default_numberofsentences : Z := 500000.
Definition default_numechildren : Z := 100.
Definition default_noise_levels : list Q := [0 # 1; 5 # 100; 10 # 100; 25 # 100; 50 # 100].

(** The namespace returned by [parse_arguments()]. *)
Record Args := mkArgs {
  rate : Q;
  cons_rate : Q;
  num_echildren : Z;
  num_sents : Z;
  noise_levels : list Q;
  num_procs : Z;
  verbose : bool
}.

(** One option occurrence on the command line, after argparse's [type=]
    conversion ([float] or [int]) has succeeded. *)
Inductive CliOpt :=
| OptRate (q : Q)              (* -r / --rate *)
| OptConsRate (q : Q)          (* -c / --cons-rate *)
| OptNumEchildren (n : Z)      (* -e / --num-echildren *)
| OptNumSents (n : Z)          (* -s / --num-sents *)
| OptNoiseLevels (qs : list Q) (* -n / --noise-levels, nargs="+" *)
| OptNumProcs (n : Z)          (* -p / --num-procs *)
| OptVerbose.                  (* -v / --verbose *)

Definition defaults (cpu_count : Z) : Args :=
  mkArgs default_rate default_conservativerate default_numechildren
    default_numberofsentences default_noise_levels cpu_count false.

(** One option stores its value (a later occurrence overrides an earlier
    one); [None] is argparse's usage error (exit status 2), which here
    only [nargs="+"] with no value produces. *)
Definition apply_opt (a : Args) (o : CliOpt) : option Args :=
  match o with
  | OptRate q => Some (mkArgs q (cons_rate a) (num_echildren a) (num_sents a)
                         (noise_levels a) (num_procs a) (verbose a))
  | OptConsRate q => Some (mkArgs (rate a) q (num_echildren a) (num_sents a)
                             (noise_levels a) (num_procs a) (verbose a))
  | OptNumEchildren n => Some (mkArgs (rate a) (cons_rate a) n (num_sents a)
                                 (noise_levels a) (num_procs a) (verbose a))
  | OptNumSents n => Some (mkArgs (rate a) (cons_rate a) (num_echildren a) n
                             (noise_levels a) (num_procs a) (verbose a))
  | OptNoiseLevels [] => None
  | OptNoiseLevels qs => Some (mkArgs (rate a) (cons_rate a) (num_echildren a)
                                 (num_sents a) qs (num_procs a) (verbose a))
  | OptNumProcs n => Some (mkArgs (rate a) (cons_rate a) (num_echildren a)
                             (num_sents a) (noise_levels a) n (verbose a))
  | OptVerbose => Some (mkArgs (rate a) (cons_rate a) (num_echildren a)
                          (num_sents a) (noise_levels a) (num_procs a) true)
  end.

Fixpoint parse_go (argv : list CliOpt) (a : Args) : option Args :=
  match argv with
  | [] => Some a
  | o :: os =>
      match apply_opt a o with
      | Some a' => parse_go os a'
      | None => None
      end
  end.

(** [parse_arguments()]; the default of [--num-procs] is
    [multiprocessing.cpu_count()]. *)
Definition parse_arguments (cpu_count : Z) (argv : list CliOpt) : option Args :=
  parse_go argv (defaults cpu_count).

(** The [ExperimentParameters] that [main()] builds from [args]. *)
Definition main_params (args : Args) : Main.ExperimentParameters :=
  {| Main.learningrate := rate args;
     Main.conservative_learningrate := cons_rate args;
     Main.num_sentences := num_sents args;
     Main.noise_levels := noise_levels args;
     Main.num_procs := num_procs args;
     Main.num_echildren := num_echildren args;
     Main.languages := [Main.English; Main.French; Main.German; Main.Japanese] |}.

(** [main()] up to the trials handed to the pool by [run_simulations]:
    [None] when argument parsing stops the program first. *)
Definition main_trials (cpu_count : Z) (argv : list CliOpt)
    : option (list Main.TrialParameters) :=
  match parse_arguments cpu_count argv with
  | Some args => Some (Main.trials (main_params args))
  | None => None
  end.

End Cli.

(* ------------------------------------------------------------------ *)
(** ** Concrete collaborators, for running the trial code *)

Module Doubles.
Import Main.

(** A world that is a call counter; [random()] always returns [u]. *)
Definition const_runtime (u : Q) : Runtime nat :=
  {| random := fun w => (u, S w);
     datetime_now := fun w => (Z.of_nat w, S w) |}.

Definition sample_sentence : Sentence.Sentence :=
  Sentence.mkSentence "611" "DEC" "O1 Verb" (Py.split "O1 Verb") false.

(** A corpus that serves every grammar id. *)
Definition serving_domain : Domain nat :=
  {| get_sentence_in_language := fun _ w => (Ok sample_sentence, w);
     get_sentence_not_in_language := fun _ w => (Ok sample_sentence, w) |}.

(** A corpus that knows no grammar id. *)
Definition rejecting_domain : Domain nat :=
  {| get_sentence_in_language := fun _ w => (Raise LanguageNotFound, w);
     get_sentence_not_in_language := fun _ w => (Raise LanguageNotFound, w) |}.

(** A learner counting the sentences it consumed, whose
    [target_language] attribute is [lang]. *)
Definition learner_resolving_to (lang : Z) : Learner nat :=
  {| InstrumentedNDChild := fun _ _ _ => O;
     consumeSentence := fun c _ => S c;
     target_language := fun _ => PInt lang;
     grammar := fun c => [("SP", PFloat (Z.of_nat c # 1))]%string |}.

End Doubles.

(* ------------------------------------------------------------------ *)
(** ** Properties of the sentence classifier *)

Module SentenceFacts.
Import Sentence.

Lemma is_prefix_refl (s : string) : Py.is_prefix s s = true.
Proof.
  induction s as [|c s IH]; simpl; [reflexivity|].
  rewrite Ascii.eqb_refl, IH. reflexivity.
Qed.

Lemma contains_refl (s : string) : Py.contains s s = true.
Proof.
  destruct s as [|c s]; simpl; [reflexivity|].
  rewrite Ascii.eqb_refl, is_prefix_refl. reflexivity.
Qed.

Lemma list_index_app (pre post : list string) (w : string) :
  (forall v, In v pre -> v <> w) ->
  Py.list_index (pre ++ w :: post) w = Some (length pre).
Proof.
  induction pre as [|v pre IH]; intros Hpre; simpl.
  - rewrite String.eqb_refl. reflexivity.
  - destruct (String.eqb_spec v w) as [E|E].
    + exfalso. apply (Hpre v); [left; reflexivity | exact E].
    + rewrite IH; [reflexivity|]. intros u Hu. apply Hpre. right. exact Hu.
Qed.

Lemma first_containing_ge (key : string) (toks : list string) :
  -1 <= first_containing key toks.
Proof.
  induction toks as [|w ws IH]; simpl; [lia|].
  destruct (Py.contains key w); [lia|].
  destruct (Z.eqb_spec (first_containing key ws) (-1)); lia.
Qed.

Lemma first_containing_none (key : string) (toks : list string) :
  first_containing key toks = -1 <-> (forall w, In w toks -> Py.contains key w = false).
Proof.
  induction toks as [|w ws IH]; simpl.
  - split; [intros _ w []|reflexivity].
  - destruct (Py.contains key w) eqn:Ew.
    + split; [discriminate|]. intros H. rewrite (H w (or_introl eq_refl)) in Ew.
      discriminate.
    + destruct (Z.eqb_spec (first_containing key ws) (-1)) as [E|E].
      * split; [|reflexivity]. intros _ v [<-|Hv]; [exact Ew|].
        apply IH; assumption.
      * pose proof (first_containing_ge key ws) as Hge. split; [lia|].
        intros H. exfalso. apply E, IH. intros v Hv. apply H. right. exact Hv.
Qed.

Lemma first_containing_app (key : string) (pre post : list string) (w : string) :
  (forall v, In v pre -> Py.contains key v = false) ->
  Py.contains key w = true ->
  first_containing key (pre ++ w :: post) = Z.of_nat (length pre).
Proof.
  induction pre as [|v pre IH]; intros Hpre Hw; simpl.
  - rewrite Hw. reflexivity.
  - rewrite (Hpre v (or_introl eq_refl)).
    rewrite IH; [|intros u Hu; apply Hpre; right; exact Hu | exact Hw].
    destruct (Z.eqb_spec (Z.of_nat (length pre)) (-1)); lia.
Qed.

Lemma first_containing_hit (key : string) (pre r1 r2 : list string) :
  existsb (Py.contains key) pre = true ->
  first_containing key (pre ++ r1) = first_containing key (pre ++ r2).
Proof.
  induction pre as [|u pre IH]; simpl; [discriminate|].
  destruct (Py.contains key u); simpl; [reflexivity|].
  intros E. rewrite (IH E). reflexivity.
Qed.

(** The loop, started after a prefix [pre] of words not containing [key]. *)
Lemma indexString_loop_spec (key : string) (pre ws : list string) :
  (forall v, In v pre -> Py.contains key v = false) ->
  indexString_loop (pre ++ ws) key ws =
  Some (let r := first_containing key ws in
        if r =? -1 then -1 else Z.of_nat (length pre) + r).
Proof.
  revert pre. induction ws as [|w ws IH]; intros pre Hpre; simpl; [reflexivity|].
  destruct (Py.contains key w) eqn:Ew.
  - rewrite list_index_app; [simpl; f_equal; lia|].
    intros v Hv E. subst v. rewrite (Hpre w Hv) in Ew. discriminate.
  - replace (pre ++ w :: ws) with ((pre ++ [w]) ++ ws)
      by (rewrite <- app_assoc; reflexivity).
    rewrite IH.
    + pose proof (first_containing_ge key ws).
      rewrite length_app; simpl.
      destruct (Z.eqb_spec (first_containing key ws) (-1)) as [E|E].
      * reflexivity.
      * destruct (Z.eqb_spec (first_containing key ws + 1) (-1)); [lia|].
        f_equal. lia.
    + intros v Hv. apply in_app_or in Hv as [Hv|[<-|[]]]; [apply Hpre; exact Hv|].
      exact Ew.
Qed.

Lemma indexString_first (toks : list string) (key : string) :
  indexString toks key = Some (first_containing key toks).
Proof.
  unfold indexString.
  rewrite <- (app_nil_l toks) at 1.
  rewrite (indexString_loop_spec key [] toks) by (intros v []).
  simpl. pose proof (first_containing_ge key toks).
  destruct (Z.eqb_spec (first_containing key toks) (-1)); f_equal; lia.
Qed.

Lemma init_spec (lang infl str : string) :
  init (lang, infl, str) =
  Some (mkSentence lang infl str (Py.split str)
          (outOblique_of (first_containing "O1" (Py.split str))
             (first_containing "O2" (Py.split str))
             (first_containing "P" (Py.split str))
             (first_containing "O3" (Py.split str)))).
Proof.
  unfold init. rewrite !indexString_first. reflexivity.
Qed.

(** Reading the spec's sumbool decisions as booleans. *)
Definition sb {A B : Prop} (d : {A} + {B}) : bool := if d then true else false.

Lemma if_sb {A B : Prop} {T : Type} (d : {A} + {B}) (a b : T) :
  (if d then a else b) = (if sb d then a else b).
Proof. destruct d; reflexivity. Qed.

Lemma sb_and {A B C D : Prop} (d1 : {A} + {B}) (d2 : {C} + {D}) :
  sb (Sumbool.sumbool_and _ _ _ _ d1 d2) = sb d1 && sb d2.
Proof. destruct d1, d2; reflexivity. Qed.

Lemma sb_not {A B : Prop} (d : {A} + {B}) :
  sb (sumbool_not _ _ d) = negb (sb d).
Proof. destruct d; reflexivity. Qed.

Lemma sb_eq (x y : Z) : sb (Z.eq_dec x y) = (x =? y).
Proof. unfold sb. destruct (Z.eq_dec x y), (Z.eqb_spec x y); congruence. Qed.

Lemma sb_lt (x y : Z) : sb (Z_lt_dec x y) = (x <? y).
Proof. unfold sb. destruct (Z_lt_dec x y), (Z.ltb_spec x y); lia || reflexivity. Qed.

Lemma outOblique_of_policy (a b c d : Z) :
  outOblique_of a b c d = spec_policy a b c d.
Proof.
  unfold outOblique_of, spec_policy, condA, condB, allPresent.
  rewrite !(if_sb (Sumbool.sumbool_and _ _ _ _ _ _)).
  rewrite !sb_and, !sb_not, !sb_eq, !sb_lt.
  destruct (a =? -1), (b =? -1), (c =? -1), (d =? -1), (a <? b), (b <? c),
    (d <? b), (b <? a), (d =? c + 1), (c =? d + 1); reflexivity.
Qed.

Lemma condA_true (a b c d : Z) :
  condA a b c d = true <-> (a <> -1 /\ a < b < c /\ d = c + 1).
Proof.
  unfold condA. rewrite !andb_true_iff, negb_true_iff, Z.eqb_neq, !Z.ltb_lt, Z.eqb_eq.
  tauto.
Qed.

Lemma condB_true (a b c d : Z) :
  condB a b c d = true <-> (d <> -1 /\ d < b < a /\ c = d + 1).
Proof.
  unfold condB. rewrite !andb_true_iff, negb_true_iff, Z.eqb_neq, !Z.ltb_lt, Z.eqb_eq.
  tauto.
Qed.

Lemma allPresent_true (a b c d : Z) :
  allPresent a b c d = true <-> (a <> -1 /\ b <> -1 /\ c <> -1 /\ d <> -1).
Proof.
  unfold allPresent. rewrite !andb_true_iff, !negb_true_iff, !Z.eqb_neq. tauto.
Qed.

Lemma outOblique_of_true (a b c d : Z) :
  outOblique_of a b c d = true -> allPresent a b c d = true.
Proof.
  unfold outOblique_of.
  destruct (condA a b c d), (condB a b c d), (allPresent a b c d); congruence.
Qed.

(** C1: constructing a [Sentence] never raises, tokenises with
    [str.split()], and sets [outOblique] to the spec's ordered decision
    policy applied to the four marker indices (first token containing the
    marker, or -1): case A gives false, else case B gives false, else all
    four present gives true, else false. *)
Theorem outOblique_decision_policy (lang infl str : string) :
  exists s, init (lang, infl, str) = Some s /\
    sentenceList s = Py.split str /\
    outOblique s =
      spec_policy (first_containing "O1" (Py.split str))
        (first_containing "O2" (Py.split str))
        (first_containing "P" (Py.split str))
        (first_containing "O3" (Py.split str)).
Proof.
  eexists. rewrite init_spec. split; [reflexivity|]. split; [reflexivity|].
  apply outOblique_of_policy.
Qed.

(** C5: when one of the markers O1, O2, O3, P is contained in no token
    and neither canonical ordering (case A or case B) matches, the
    sentence's [outOblique] flag is false. *)
Theorem outOblique_absent_marker_false (lang infl str : string) :
  let toks := Py.split str in
  let O1 := first_containing "O1" toks in
  let O2 := first_containing "O2" toks in
  let P := first_containing "P" toks in
  let O3 := first_containing "O3" toks in
  (exists key, In key ["O1"; "O2"; "O3"; "P"]%string /\
     forall w, In w toks -> Py.contains key w = false) ->
  ~ (O1 <> -1 /\ O1 < O2 < P /\ O3 = P + 1) ->
  ~ (O3 <> -1 /\ O3 < O2 < O1 /\ P = O3 + 1) ->
  exists s, init (lang, infl, str) = Some s /\ outOblique s = false.
Proof.
  intros toks O1 O2 P O3 [key [Hkey Habs]] HA HB.
  eexists. rewrite init_spec. split; [reflexivity|]. simpl.
  fold toks O1 O2 P O3.
  apply first_containing_none in Habs.
  unfold outOblique_of.
  destruct (condA O1 O2 P O3) eqn:EA; [apply condA_true in EA; tauto|].
  destruct (condB O1 O2 P O3) eqn:EB; [apply condB_true in EB; tauto|].
  destruct (allPresent O1 O2 P O3) eqn:EP; [|reflexivity].
  apply allPresent_true in EP.
  simpl in Hkey. exfalso.
  destruct Hkey as [<-|[<-|[<-|[<-|[]]]]]; unfold O1, O2, O3, P in EP; tauto.
Qed.

(** C6: [indexString] never raises and returns the index of the first
    token that contains the key as a substring, -1 exactly when no token
    contains it; a token merely containing the key (such as "FooO2Bar" for
    "O2") is found at the same position as a token equal to the key. *)
Theorem indexString_first_containing (toks : list string) (key : string) :
  indexString toks key = Some (first_containing key toks) /\
  (first_containing key toks = -1 <->
     forall w, In w toks -> Py.contains key w = false) /\
  (forall pre w post,
     (forall v, In v pre -> Py.contains key v = false) ->
     Py.contains key w = true ->
     indexString (pre ++ w :: post) key = Some (Z.of_nat (length pre))) /\
  (forall pre post,
     indexString (pre ++ "FooO2Bar"%string :: post) "O2" =
     indexString (pre ++ "O2"%string :: post) "O2").
Proof.
  split; [apply indexString_first|].
  split; [apply first_containing_none|].
  split.
  - intros pre w post Hpre Hw.
    rewrite indexString_first, (first_containing_app key pre post w Hpre Hw).
    reflexivity.
  - intros pre post. rewrite !indexString_first.
    destruct (existsb (Py.contains "O2") pre) eqn:E.
    + f_equal. apply first_containing_hit. exact E.
    + assert (Hpre : forall v, In v pre -> Py.contains "O2" v = false).
      { intros v Hv. destruct (Py.contains "O2" v) eqn:Ev; [|reflexivity].
        exfalso. assert (existsb (Py.contains "O2") pre = true) as T
          by (apply existsb_exists; exists v; auto). congruence. }
      rewrite (first_containing_app _ pre post "FooO2Bar"%string) by (assumption || reflexivity).
      rewrite (first_containing_app _ pre post "O2"%string) by (assumption || reflexivity).
      reflexivity.
Qed.

(** C10: if [outOblique] is true then all four markers are present
    (no index is -1); a missing marker makes both canonical conditions
    false, since each condition forces all four indices to be
    non-negative. *)
Theorem outOblique_true_all_present (lang infl str : string) (s : Sentence) :
  init (lang, infl, str) = Some s ->
  let toks := Py.split str in
  let O1 := first_containing "O1" toks in
  let O2 := first_containing "O2" toks in
  let P := first_containing "P" toks in
  let O3 := first_containing "O3" toks in
  (outOblique s = true -> O1 <> -1 /\ O2 <> -1 /\ P <> -1 /\ O3 <> -1) /\
  (condA O1 O2 P O3 = true \/ condB O1 O2 P O3 = true ->
     0 <= O1 /\ 0 <= O2 /\ 0 <= P /\ 0 <= O3) /\
  (O1 = -1 \/ O2 = -1 \/ P = -1 \/ O3 = -1 ->
     condA O1 O2 P O3 = false /\ condB O1 O2 P O3 = false).
Proof.
  rewrite init_spec. intros Hs. injection Hs as <-.
  intros toks O1 O2 P O3.
  pose proof (first_containing_ge "O1" toks) as G1.
  pose proof (first_containing_ge "O2" toks) as G2.
  pose proof (first_containing_ge "P" toks) as G3.
  pose proof (first_containing_ge "O3" toks) as G4.
  fold toks O1 O2 P O3 in G1, G2, G3, G4.
  assert (Hnn : condA O1 O2 P O3 = true \/ condB O1 O2 P O3 = true ->
                0 <= O1 /\ 0 <= O2 /\ 0 <= P /\ 0 <= O3).
  { rewrite condA_true, condB_true. lia. }
  split; [|split; [exact Hnn|]].
  - unfold outOblique. simpl. fold toks O1 O2 P O3.
    intros H. apply outOblique_of_true, allPresent_true in H. exact H.
  - intros Habs.
    destruct (condA O1 O2 P O3) eqn:EA, (condB O1 O2 P O3) eqn:EB; try (split; reflexivity);
      exfalso; (destruct Hnn; [tauto|]); lia.
Qed.

Lemma outOblique_absent_marker_false_witness :
  exists s, init ("611", "DEC", "O1 O2 Adv")%string = Some s /\ outOblique s = false.
Proof.
  apply (outOblique_absent_marker_false "611" "DEC" "O1 O2 Adv").
  - exists "P"%string. split; [simpl; tauto|].
    intros w Hw. simpl in Hw. destruct Hw as [<-|[<-|[<-|[]]]]; reflexivity.
  - simpl. lia.
  - simpl. lia.
Defined.

Lemma indexString_first_containing_witness :
  indexString ["Adv"; "FooO2Bar"; "O2"]%string "O2" = Some 1.
Proof.
  apply (proj1 (proj2 (proj2 (indexString_first_containing [] "O2"))) ["Adv"%string]).
  - intros v [<-|[]]. reflexivity.
  - reflexivity.
Defined.

Lemma outOblique_true_all_present_witness :
  let toks := Py.split "O2 O1 P O3" in
  first_containing "O1" toks <> -1 /\ first_containing "O2" toks <> -1 /\
  first_containing "P" toks <> -1 /\ first_containing "O3" toks <> -1.
Proof.
  apply (proj1 (outOblique_true_all_present "611" "DEC" "O2 O1 P O3"
    (mkSentence "611" "DEC" "O2 O1 P O3" (Py.split "O2 O1 P O3") true)
    ltac:(vm_compute; reflexivity))).
  vm_compute. reflexivity.
Defined.

Example split_ex : Py.split "  a bO1  c " = ["a"; "bO1"; "c"]%string.
Proof. reflexivity. Qed.

Example init_ex :
  option_map outOblique (init ("611", "DEC", "O2 O1 P O3")%string) = Some true.
Proof. vm_compute. reflexivity. Qed.


End SentenceFacts.

(* ------------------------------------------------------------------ *)
(** ** Properties of the trial generator *)

Module GeneratorFacts.
Import Main.

Lemma length_flat_map_const {A B : Type} (f : A -> list B) (m : nat) (l : list A) :
  (forall x, length (f x) = m) -> length (flat_map f l) = (length l * m)%nat.
Proof.
  intros Hf. induction l as [|x l IH]; simpl; [reflexivity|].
  rewrite length_app, Hf, IH. reflexivity.
Qed.

(** Block [i] of a [flat_map] whose blocks all have length [m]. *)
Lemma nth_error_flat_map_block {A B : Type} (f : A -> list B) (m : nat)
    (l : list A) (d : A) (i j : nat) :
  (forall x, length (f x) = m) -> (i < length l)%nat -> (j < m)%nat ->
  nth_error (flat_map f l) (i * m + j) = nth_error (f (nth i l d)) j.
Proof.
  intros Hf. revert i. induction l as [|x l IH]; intros i Hi Hj; simpl in *; [lia|].
  destruct i as [|i].
  - rewrite nth_error_app1 by (rewrite Hf; lia). reflexivity.
  - rewrite nth_error_app2 by (rewrite Hf; lia).
    rewrite Hf. replace (S i * m + j - m)%nat with (i * m + j)%nat by lia.
    apply IH; lia.
Qed.

Lemma nth_error_map_seq {B : Type} (g : nat -> B) (r k : nat) :
  (k < r)%nat -> nth_error (map g (seq 0 r)) k = Some (g k).
Proof.
  intros Hk. rewrite nth_error_map, nth_error_seq.
  destruct (Nat.ltb_spec k r); [reflexivity|lia].
Qed.

(** Decomposition of a position of a [g*n*r] block list into its block
    indices. *)
Lemma position_decompose (g n r p : nat) :
  (p < g * n * r)%nat ->
  exists i j k, (i < g)%nat /\ (j < n)%nat /\ (k < r)%nat /\
    p = ((i * n + j) * r + k)%nat.
Proof.
  intros Hp.
  assert (Hr : r <> O) by (intros ->; lia).
  assert (Hnr : (n * r <> 0)%nat) by (intros Hz; rewrite <- Nat.mul_assoc, Hz in Hp; lia).
  exists (p / (n * r))%nat, ((p mod (n * r)) / r)%nat, ((p mod (n * r)) mod r)%nat.
  split; [|split; [|split]].
  - apply Nat.Div0.div_lt_upper_bound. nia.
  - apply Nat.Div0.div_lt_upper_bound.
    pose proof (Nat.mod_upper_bound p (n * r) Hnr). lia.
  - apply Nat.mod_upper_bound. exact Hr.
  - pose proof (Nat.div_mod p (n * r) Hnr) as E1.
    pose proof (Nat.div_mod (p mod (n * r)) r Hr) as E2.
    nia.
Qed.

(** Distinct index triples occupy distinct positions. *)
Lemma position_injective (n r i j k i' j' k' : nat) :
  (j < n)%nat -> (j' < n)%nat -> (k < r)%nat -> (k' < r)%nat ->
  ((i * n + j) * r + k)%nat = ((i' * n + j') * r + k')%nat ->
  i = i' /\ j = j' /\ k = k'.
Proof.
  intros Hj Hj' Hk Hk' E.
  destruct (Nat.div_mod_unique r (i * n + j) (i' * n + j') k k' Hk Hk')
    as [E1 ->]; [nia|].
  destruct (Nat.div_mod_unique n i i' j j' Hj Hj') as [-> ->]; [nia|].
  auto.
Qed.

(** C3: for every experiment, with [g] grammars, [n] noise levels and
    [r] replications ([r] is [0] when [num_echildren] is not positive),
    the generator yields exactly [g*n*r] trials. For every index triple
    [(i, j, k)] in range, position [(i*n + j)*r + k] holds the trial for
    grammar [i], noise level [j] (grammars outermost, replications
    innermost), carrying the experiment's learning rate, conservative
    rate and sentence count; distinct triples have distinct positions
    and every position belongs to some triple, so each (grammar, noise,
    replication) combination appears exactly once. *)
Theorem trials_enumeration (params : ExperimentParameters) :
  let g := length (languages params) in
  let n := length (noise_levels params) in
  let r := Z.to_nat (num_echildren params) in
  length (trials params) = (g * n * r)%nat /\
  (forall i j k, (i < g)%nat -> (j < n)%nat -> (k < r)%nat ->
    nth_error (trials params) ((i * n + j) * r + k)%nat =
      Some (mkTrialParameters (nth i (languages params) 0)
              (nth j (noise_levels params) (0 # 1))
              (learningrate params) (conservative_learningrate params)
              (num_sentences params))) /\
  (forall i j k i' j' k', (j < n)%nat -> (j' < n)%nat -> (k < r)%nat -> (k' < r)%nat ->
    ((i * n + j) * r + k)%nat = ((i' * n + j') * r + k')%nat ->
    i = i' /\ j = j' /\ k = k') /\
  (forall p, (p < length (trials params))%nat ->
    exists i j k, (i < g)%nat /\ (j < n)%nat /\ (k < r)%nat /\
      p = ((i * n + j) * r + k)%nat).
Proof.
  intros g n r. unfold trials.
  set (mk := fun lang noise (_ : nat) =>
             mkTrialParameters lang noise (learningrate params)
               (conservative_learningrate params) (num_sentences params)).
  assert (Hin : forall lang noise, length (map (mk lang noise) (seq 0 r)) = r)
    by (intros; rewrite length_map, length_seq; reflexivity).
  assert (Hmid : forall lang,
    length (flat_map (fun noise => map (mk lang noise) (seq 0 r))
              (noise_levels params)) = (n * r)%nat)
    by (intros; apply length_flat_map_const; apply Hin).
  assert (Hlen : length (flat_map (fun lang =>
             flat_map (fun noise => map (mk lang noise) (seq 0 r))
               (noise_levels params)) (languages params)) = (g * n * r)%nat).
  { rewrite (length_flat_map_const _ (n * r)) by apply Hmid. unfold g. lia. }
  split; [exact Hlen|]. split; [|split].
  - intros i j k Hi Hj Hk.
    replace ((i * n + j) * r + k)%nat with (i * (n * r) + (j * r + k))%nat by lia.
    rewrite (nth_error_flat_map_block _ (n * r) _ 0) by (apply Hmid || nia || assumption).
    rewrite (nth_error_flat_map_block _ r _ (0 # 1)) by (apply Hin || assumption).
    rewrite nth_error_map_seq by exact Hk. reflexivity.
  - intros i j k i' j' k'. apply position_injective.
  - intros p Hp. apply position_decompose. rewrite <- Hlen. exact Hp.
Qed.

(** The concrete scenario of the spec: one grammar, noise 0, three
    replications of ten sentences; and [-e 0], which yields no trial. *)
Lemma trials_enumeration_witness :
  let params := mkExperimentParameters [English] [0 # 1] (9 # 10) (5 # 10000) 10 3 2 in
  length (trials params) = 3%nat /\
  nth_error (trials params) 2 =
    Some (mkTrialParameters English (0 # 1) (9 # 10) (5 # 10000) 10) /\
  length (trials (mkExperimentParameters [English; French] [0 # 1; 1 # 2]
    (9 # 10) (5 # 10000) 10 0 2)) = 0%nat.
Proof.
  pose proof (trials_enumeration
    (mkExperimentParameters [English] [0 # 1] (9 # 10) (5 # 10000) 10 3 2))
    as [Hl [Hn _]].
  pose proof (trials_enumeration
    (mkExperimentParameters [English; French] [0 # 1; 1 # 2]
      (9 # 10) (5 # 10000) 10 0 2)) as [Hz _].
  simpl in Hl, Hn, Hz. split; [exact Hl|]. split; [|exact Hz].
  apply (Hn 0 0 2)%nat; lia.
Defined.

End GeneratorFacts.

(* ------------------------------------------------------------------ *)
(** ** Properties of a trial *)

Module TrialFacts.
Import Main.

Lemma Qltb_iff (a b : Q) : Qltb a b = true <-> (a < b)%Q.
Proof.
  unfold Qltb. rewrite negb_true_iff.
  split.
  - intros H. apply Qnot_le_lt. intros Hle. apply Qle_bool_iff in Hle. congruence.
  - intros H. destruct (Qle_bool b a) eqn:E; [|reflexivity].
    apply Qle_bool_iff in E. exfalso. apply (Qlt_not_le a b); assumption.
Qed.

Section Run.
Context {World Child : Type} `{Runtime World} `{Domain World} `{Learner Child}.

(** When every draw falls on the same side of [noise], every sampling
    call of the loop takes the same path; the loop stops early only on an
    exception. *)
Lemma run_child_loop_path (lang : Z) (noise : Q) (b : bool)
    (Hb : forall w, Qltb (fst (random w)) noise = b)
    (n : nat) (aChild : Child) (st : St World) :
  exists new,
    calls (snd (run_child_loop lang noise n aChild st)) = calls st ++ new /\
    Forall (eq (if b then CallNotInLanguage lang else CallInLanguage lang)) new /\
    (forall c, fst (run_child_loop lang noise n aChild st) = Ok c ->
       length new = n).
Proof.
  revert aChild st. induction n as [|n IH]; intros aChild st.
  - exists []. simpl. rewrite app_nil_r.
    split; [reflexivity|split; [constructor|intros; reflexivity]].
  - simpl. unfold bind, py_random.
    specialize (Hb (world st)).
    destruct (random (world st)) as [u w]. simpl in Hb |- *. rewrite Hb.
    destruct b; unfold DOMAIN_get_sentence_not_in_language,
      DOMAIN_get_sentence_in_language, domain_call; simpl.
    + destruct (get_sentence_not_in_language lang w) as [[s|e] w'].
      * destruct (IH (consumeSentence aChild s) (mkSt w' (calls st ++ [CallNotInLanguage lang])))
          as [new [Hc [Hf Hl]]].
        exists (CallNotInLanguage lang :: new). simpl in Hc.
        rewrite Hc, <- app_assoc. split; [reflexivity|split; [constructor; auto|]].
        intros c Hok. simpl. f_equal. apply (Hl c Hok).
      * exists [CallNotInLanguage lang]. simpl.
        split; [reflexivity|split; [constructor; auto|discriminate]].
    + destruct (get_sentence_in_language lang w) as [[s|e] w'].
      * destruct (IH (consumeSentence aChild s) (mkSt w' (calls st ++ [CallInLanguage lang])))
          as [new [Hc [Hf Hl]]].
        exists (CallInLanguage lang :: new). simpl in Hc.
        rewrite Hc, <- app_assoc. split; [reflexivity|split; [constructor; auto|]].
        intros c Hok. simpl. f_equal. apply (Hl c Hok).
      * exists [CallInLanguage lang]. simpl.
        split; [reflexivity|split; [constructor; auto|discriminate]].
Qed.

End Run.

(** C4: if every [random()] value lies in [0,1), a trial with noise 0.0
    only ever calls the in-language sampler (zero not-in-language calls)
    and one with noise 1.0 only the not-in-language sampler; when the
    trial completes, that is exactly [k] calls for [k] sentences. *)
Theorem run_child_noise_extremes {World Child : Type}
    `{Runtime World} `{Domain World} `{Learner Child}
    (Hrand : forall w, (0 <= fst (random w))%Q /\ (fst (random w) < 1)%Q)
    (lang : Z) (rate conservativerate : Q) (k : Z) (st : St World) :
  (exists new,
     calls (snd (run_child lang (0 # 1) rate conservativerate k st)) = calls st ++ new /\
     Forall (eq (CallInLanguage lang)) new /\
     (forall c, fst (run_child lang (0 # 1) rate conservativerate k st) = Ok c ->
        length new = Z.to_nat k)) /\
  (exists new,
     calls (snd (run_child lang (1 # 1) rate conservativerate k st)) = calls st ++ new /\
     Forall (eq (CallNotInLanguage lang)) new /\
     (forall c, fst (run_child lang (1 # 1) rate conservativerate k st) = Ok c ->
        length new = Z.to_nat k)).
Proof.
  split; unfold run_child.
  - apply (run_child_loop_path lang (0 # 1) false).
    intros w. destruct (Qltb (fst (random w)) (0 # 1)) eqn:E; [|reflexivity].
    apply Qltb_iff in E. destruct (Hrand w) as [Hnn _].
    exfalso. apply (Qlt_not_le _ _ E). exact Hnn.
  - apply (run_child_loop_path lang (1 # 1) true).
    intros w. apply Qltb_iff. apply (Hrand w).
Qed.

Lemma run_child_noise_extremes_witness :
  (exists new,
     calls (snd (@run_child nat nat (Doubles.const_runtime (1 # 2))
              Doubles.serving_domain (Doubles.learner_resolving_to English)
              English (0 # 1) (9 # 10) (5 # 10000) 10 (mkSt O []))) = [] ++ new /\
     Forall (eq (CallInLanguage English)) new /\
     (forall c, fst (@run_child nat nat (Doubles.const_runtime (1 # 2))
              Doubles.serving_domain (Doubles.learner_resolving_to English)
              English (0 # 1) (9 # 10) (5 # 10000) 10 (mkSt O [])) = Ok c ->
        length new = 10%nat)).
Proof.
  apply (proj1 (@run_child_noise_extremes nat nat (Doubles.const_runtime (1 # 2))
           Doubles.serving_domain (Doubles.learner_resolving_to English)
           ltac:(intros w; simpl; unfold Qle, Qlt; simpl; lia)
           English (9 # 10) (5 # 10000) 10 (mkSt O []))).
Defined.

Lemma dict_get_set (d : dict) (k k' : string) (v : PyVal) :
  dict_get (dict_set d k v) k' = if String.eqb k k' then Some v else dict_get d k'.
Proof.
  induction d as [|[k0 v0] d IH]; simpl; [reflexivity|].
  destruct (String.eqb_spec k0 k) as [->|Hne]; simpl.
  - destruct (String.eqb k k'); reflexivity.
  - rewrite IH. destruct (String.eqb_spec k0 k') as [->|]; [|reflexivity].
    destruct (String.eqb_spec k k') as [->|]; [congruence|reflexivity].
Qed.

(** The entries spread last: every field of [asdict(params)] is found
    in the result with its own value, whatever the learner reports. *)
Lemma dict_update_asdict_get (base : dict) (p : TrialParameters) :
  dict_get (dict_update base (asdict p)) "language" = Some (PInt (language p)) /\
  dict_get (dict_update base (asdict p)) "noise" = Some (PFloat (noise p)) /\
  dict_get (dict_update base (asdict p)) "rate" = Some (PFloat (rate p)) /\
  dict_get (dict_update base (asdict p)) "conservativerate" =
    Some (PFloat (conservativerate p)) /\
  dict_get (dict_update base (asdict p)) "numberofsentences" =
    Some (PInt (numberofsentences p)).
Proof.
  unfold dict_update, asdict. simpl. rewrite !dict_get_set. simpl.
  repeat split.
Qed.

Section RunTrial.
Context {World Child : Type} `{Runtime World} `{Domain World} `{Learner Child}.

Lemma run_trial_ok_shape (params : TrialParameters) (st : St World) (d : dict) :
  fst (run_trial params st) = Ok d ->
  exists base, d = dict_update base (asdict params).
Proof.
  unfold run_trial, bind, py_now, ret.
  destruct (datetime_now (world st)) as [t0 w0]. simpl.
  destruct (run_child (language params) (noise params) (rate params)
              (conservativerate params) (numberofsentences params)
              {| world := w0; calls := calls st |}) as [[c|e] st1]; [|discriminate].
  destruct (datetime_now (world st1)) as [t1 w1]. simpl.
  intros Hd. injection Hd as <-. eexists. reflexivity.
Qed.

(** Whatever [target_language] the learner reports, the ['language']
    entry of a completed trial's result is the trial's grammar id. *)
Lemma run_trial_language_is_param (params : TrialParameters) (st : St World) (d : dict) :
  fst (run_trial params st) = Ok d ->
  dict_get d "language" = Some (PInt (language params)).
Proof.
  intros Hd. destruct (run_trial_ok_shape params st d Hd) as [base ->].
  apply dict_update_asdict_get.
Qed.

End RunTrial.

(** C9: if the corpus rejects the trial's grammar id with exception [e]
    on both sampling paths, a trial of at least one sentence raises [e]
    out of [run_trial], after exactly one sampling call (no retry). *)
Theorem run_trial_unknown_grammar_fails {World Child : Type}
    `{Runtime World} `{Domain World} `{Learner Child}
    (params : TrialParameters) (e : PyExn)
    (Hrej : forall w,
       fst (get_sentence_in_language (language params) w) = Raise e /\
       fst (get_sentence_not_in_language (language params) w) = Raise e)
    (Hk : 1 <= numberofsentences params) (st : St World) :
  fst (run_trial params st) = Raise e /\
  exists c, (c = CallInLanguage (language params) \/
             c = CallNotInLanguage (language params)) /\
    calls (snd (run_trial params st)) = calls st ++ [c].
Proof.
  unfold run_trial, run_child, bind, py_now.
  destruct (datetime_now (world st)) as [t0 w0]. simpl.
  destruct (Z.to_nat (numberofsentences params)) as [|n] eqn:En; [lia|].
  simpl. unfold bind, py_random. simpl.
  destruct (random w0) as [u w1]. simpl.
  destruct (Qltb u (noise params));
    unfold DOMAIN_get_sentence_not_in_language, DOMAIN_get_sentence_in_language,
      domain_call; simpl.
  - destruct (Hrej w1) as [_ Hn].
    destruct (get_sentence_not_in_language (language params) w1) as [r w2].
    simpl in Hn. subst r. simpl. split; [reflexivity|].
    exists (CallNotInLanguage (language params)). split; [right|]; reflexivity.
  - destruct (Hrej w1) as [Hi _].
    destruct (get_sentence_in_language (language params) w1) as [r w2].
    simpl in Hi. subst r. simpl. split; [reflexivity|].
    exists (CallInLanguage (language params)). split; [left|]; reflexivity.
Qed.

Lemma run_trial_unknown_grammar_fails_witness :
  let params := mkTrialParameters 9999 (0 # 1) (9 # 10) (5 # 10000) 500000 in
  fst (@run_trial nat nat (Doubles.const_runtime (1 # 2)) Doubles.rejecting_domain
         (Doubles.learner_resolving_to 9999) params (mkSt O [])) = Raise LanguageNotFound /\
  exists c, (c = CallInLanguage 9999 \/ c = CallNotInLanguage 9999) /\
    calls (snd (@run_trial nat nat (Doubles.const_runtime (1 # 2)) Doubles.rejecting_domain
         (Doubles.learner_resolving_to 9999) params (mkSt O []))) = [] ++ [c].
Proof.
  apply (@run_trial_unknown_grammar_fails nat nat (Doubles.const_runtime (1 # 2))
           Doubles.rejecting_domain (Doubles.learner_resolving_to 9999)
           (mkTrialParameters 9999 (0 # 1) (9 # 10) (5 # 10000) 500000)
           LanguageNotFound).
  - intros w. split; reflexivity.
  - simpl. lia.
Defined.

(** C2 (defect): the dict literal of [run_trial] writes
    ['language': child.target_language] and then spreads [**params], whose
    ['language'] key overwrites it. For a learner reporting French (584)
    on an English (611) trial, the result says 611 and French is lost. *)
Lemma run_trial_target_language_overwritten :
  let params := mkTrialParameters English (0 # 1) (9 # 10) (5 # 10000) 3 in
  match fst (@run_trial nat nat (Doubles.const_runtime (1 # 2)) Doubles.serving_domain
               (Doubles.learner_resolving_to French) params (mkSt O [])) with
  | Ok d => dict_get d "language" = Some (PInt English) /\
            dict_get d "language" <> Some (PInt French)
  | Raise _ => False
  end.
Proof.
  vm_compute. split; [reflexivity|discriminate].
Qed.

End TrialFacts.

(* ------------------------------------------------------------------ *)
(** ** Properties of the command line *)

Module CliFacts.
Import Cli.

(** C8 (refuted): a noise level of 1.5 on the command line is neither
    rejected by [parse_arguments] nor by [main]: the first trial handed
    to the pool carries noise 1.5. *)
Lemma cli_out_of_range_noise_runs :
  match main_trials 4 [OptNoiseLevels [3 # 2]] with
  | Some ts =>
      nth_error ts 0 =
        Some (Main.mkTrialParameters Main.English (3 # 2) (9 # 10) (5 # 10000) 500000)
  | None => False
  end.
Proof. vm_compute. reflexivity. Qed.

Lemma parse_go_app (l1 l2 : list CliOpt) (a : Args) :
  parse_go (l1 ++ l2) a =
  match parse_go l1 a with Some a' => parse_go l2 a' | None => None end.
Proof.
  revert a. induction l1 as [|o l1 IH]; intros a; simpl; [reflexivity|].
  destruct (apply_opt a o); [apply IH|reflexivity].
Qed.

(** Parsing fails only on [-n] given with no value. *)
Lemma parse_go_total (l : list CliOpt) (a : Args) :
  ~ In (OptNoiseLevels []) l -> exists a', parse_go l a = Some a'.
Proof.
  revert a. induction l as [|o l IH]; intros a Hl; simpl; [eauto|].
  assert (Ho : o <> OptNoiseLevels []) by (intros ->; apply Hl; left; reflexivity).
  assert (Hl' : ~ In (OptNoiseLevels []) l) by (intros Hin; apply Hl; right; exact Hin).
  destruct o as [q|q|n|n|[|q qs]|n|]; try (apply IH; exact Hl').
  congruence.
Qed.

(** Options other than [-n] leave the stored noise levels alone. *)
Lemma parse_go_keeps_noise (l : list CliOpt) (a a' : Args) :
  (forall qs, ~ In (OptNoiseLevels qs) l) -> parse_go l a = Some a' ->
  noise_levels a' = noise_levels a.
Proof.
  revert a. induction l as [|o l IH]; intros a Hl Hp; simpl in Hp.
  - congruence.
  - assert (Hl' : forall qs, ~ In (OptNoiseLevels qs) l)
      by (intros qs Hin; apply (Hl qs); right; exact Hin).
    destruct o as [q|q|n|n|qs|n|];
      try (rewrite (IH _ Hl' Hp); reflexivity).
    exfalso. apply (Hl qs). left. reflexivity.
Qed.

(** C8 (amended): the command line does no range check on noise levels.
    For any command line whose last [-n] option carries a non-empty list
    [ns] and on which no [-n] appears without a value, parsing succeeds,
    the stored noise levels are [ns] unchanged, [main] hands the pool
    [Main.trials] of the resulting parameters, and when [num_echildren]
    is positive these include, for every grammar of [main] and every
    value of [ns], a trial with that grammar and that noise level. *)
Theorem cli_noise_levels_unchecked (cpu_count : Z) (pre post : list CliOpt)
    (ns : list Q) (Hns : ns <> [])
    (Hpre : ~ In (OptNoiseLevels []) pre)
    (Hpost : forall qs, ~ In (OptNoiseLevels qs) post) :
  exists args,
    parse_arguments cpu_count (pre ++ OptNoiseLevels ns :: post) = Some args /\
    noise_levels args = ns /\
    main_trials cpu_count (pre ++ OptNoiseLevels ns :: post) =
      Some (Main.trials (main_params args)) /\
    (0 < num_echildren args ->
     forall lang q,
       In lang [Main.English; Main.French; Main.German; Main.Japanese] ->
       In q ns ->
       In (Main.mkTrialParameters lang q (rate args) (cons_rate args) (num_sents args))
          (Main.trials (main_params args))).
Proof.
  destruct (parse_go_total pre (defaults cpu_count) Hpre) as [a1 Ha1].
  assert (Hn : apply_opt a1 (OptNoiseLevels ns) =
    Some (mkArgs (rate a1) (cons_rate a1) (num_echildren a1) (num_sents a1)
            ns (num_procs a1) (verbose a1)))
    by (destruct ns; [congruence|reflexivity]).
  assert (Hpost' : ~ In (OptNoiseLevels []) post) by apply Hpost.
  destruct (parse_go_total post
    (mkArgs (rate a1) (cons_rate a1) (num_echildren a1) (num_sents a1)
       ns (num_procs a1) (verbose a1)) Hpost') as [args Hargs].
  assert (Hparse : parse_arguments cpu_count (pre ++ OptNoiseLevels ns :: post) = Some args).
  { unfold parse_arguments. rewrite parse_go_app, Ha1.
    change (match apply_opt a1 (OptNoiseLevels ns) with
            | Some a' => parse_go post a' | None => None end = Some args).
    rewrite Hn. exact Hargs. }
  exists args. split; [exact Hparse|].
  assert (Hns' : noise_levels args = ns)
    by (rewrite (parse_go_keeps_noise _ _ _ Hpost Hargs); reflexivity).
  split; [exact Hns'|]. split.
  - unfold main_trials. rewrite Hparse. reflexivity.
  - intros Hr lang q Hlang Hq. unfold Main.trials. apply in_flat_map.
    exists lang. split; [exact Hlang|].
    apply in_flat_map. exists q. split; [simpl; rewrite Hns'; exact Hq|].
    apply in_map_iff. exists O. split; [reflexivity|].
    apply in_seq. simpl. lia.
Qed.

(** [-e 2 -n 1.5 -v]: parsing succeeds and trials with noise 1.5 are
    generated for every grammar. *)
Lemma cli_noise_levels_unchecked_witness :
  exists args,
    parse_arguments 4 ([OptNumEchildren 2] ++ OptNoiseLevels [3 # 2] :: [OptVerbose])
      = Some args /\
    noise_levels args = [3 # 2] /\
    main_trials 4 ([OptNumEchildren 2] ++ OptNoiseLevels [3 # 2] :: [OptVerbose]) =
      Some (Main.trials (main_params args)) /\
    (0 < num_echildren args ->
     forall lang q,
       In lang [Main.English; Main.French; Main.German; Main.Japanese] ->
       In q [3 # 2] ->
       In (Main.mkTrialParameters lang q (rate args) (cons_rate args) (num_sents args))
          (Main.trials (main_params args))).
Proof.
  apply (cli_noise_levels_unchecked 4 [OptNumEchildren 2] [OptVerbose] [3 # 2]).
  - discriminate.
  - simpl. intros [H|H]; [discriminate|exact H].
  - simpl. intros qs [H|H]; [discriminate|exact H].
Defined.

End CliFacts.

(* ------------------------------------------------------------------ *)
(** ** Further properties of the tokenizer and the classifier *)

Module TokenFacts.
Import Sentence SentenceFacts.

Definition nonspace (l : list ascii) : Prop :=
  forall c, In c l -> Py.is_space c = false.

Lemma split_go_concat (s : string) (cur : list ascii) :
  flat_map list_ascii_of_string (Py.split_go s cur) =
  rev cur ++ filter (fun c => negb (Py.is_space c)) (list_ascii_of_string s).
Proof.
  revert cur. induction s as [|c s IH]; intros cur; simpl.
  - destruct cur; simpl; [reflexivity|].
    rewrite list_ascii_of_string_of_list_ascii, !app_nil_r. reflexivity.
  - destruct (Py.is_space c) eqn:Ec; simpl.
    + destruct cur as [|c0 cur']; simpl.
      * rewrite IH. reflexivity.
      * rewrite list_ascii_of_string_of_list_ascii, IH. simpl.
        repeat rewrite <- app_assoc. reflexivity.
    + rewrite IH. simpl. repeat rewrite <- app_assoc. reflexivity.
Qed.

Lemma split_go_tokens (s : string) (cur : list ascii) :
  nonspace cur ->
  forall t, In t (Py.split_go s cur) ->
    t <> EmptyString /\ nonspace (list_ascii_of_string t).
Proof.
  revert cur. induction s as [|c s IH]; intros cur Hcur t Ht; simpl in Ht.
  - destruct cur as [|c0 cur']; [destruct Ht|].
    destruct Ht as [<-|[]]. split.
    + intros E. apply (f_equal list_ascii_of_string) in E.
      rewrite list_ascii_of_string_of_list_ascii in E. simpl in E.
      destruct (rev cur'); discriminate.
    + rewrite list_ascii_of_string_of_list_ascii. intros x Hx.
      apply Hcur, in_rev. exact Hx.
  - destruct (Py.is_space c) eqn:Ec.
    + destruct cur as [|c0 cur'].
      * apply (IH []); [intros x []|exact Ht].
      * destruct Ht as [<-|Ht]; [|apply (IH []); [intros x []|exact Ht]].
        split.
        -- intros E. apply (f_equal list_ascii_of_string) in E.
           rewrite list_ascii_of_string_of_list_ascii in E. simpl in E.
           destruct (rev cur'); discriminate.
        -- rewrite list_ascii_of_string_of_list_ascii. intros x Hx.
           apply Hcur, in_rev. exact Hx.
    + apply (IH (c :: cur)); [|exact Ht].
      intros x [<-|Hx]; [exact Ec|apply Hcur; exact Hx].
Qed.

Lemma split_go_nil (s : string) (cur : list ascii) :
  Py.split_go s cur = [] <->
  cur = [] /\ forall c, In c (list_ascii_of_string s) -> Py.is_space c = true.
Proof.
  revert cur. induction s as [|c s IH]; intros cur; simpl.
  - destruct cur; simpl; split; intros H; try discriminate.
    + split; [reflexivity|intros c []].
    + reflexivity.
    + destruct H; discriminate.
  - destruct (Py.is_space c) eqn:Ec.
    + destruct cur as [|c0 cur'].
      * rewrite IH. split.
        -- intros [_ H]. split; [reflexivity|]. intros x [<-|Hx]; [exact Ec|auto].
        -- intros [_ H]. split; [reflexivity|]. intros x Hx. auto.
      * split; [discriminate|]. intros [H _]; discriminate.
    + rewrite IH. split.
      * intros [H _]; discriminate.
      * intros [_ H]. rewrite (H c (or_introl eq_refl)) in Ec. discriminate.
Qed.

(** [self.sentenceList = infoList[2].split()]: every token is non-empty
    and free of whitespace, the tokens concatenated give the sentence
    string with its whitespace removed, and there are no tokens exactly
    when the string is empty or all whitespace. *)
Theorem sentenceList_tokens (lang infl str : string) :
  exists s, init (lang, infl, str) = Some s /\
    (forall t, In t (sentenceList s) ->
       t <> EmptyString /\ nonspace (list_ascii_of_string t)) /\
    flat_map list_ascii_of_string (sentenceList s) =
      filter (fun c => negb (Py.is_space c)) (list_ascii_of_string str) /\
    (sentenceList s = [] <->
       forall c, In c (list_ascii_of_string str) -> Py.is_space c = true).
Proof.
  eexists. rewrite init_spec. split; [reflexivity|]. simpl. unfold Py.split.
  split; [apply split_go_tokens; intros c []|].
  split; [apply split_go_concat|].
  rewrite split_go_nil. split; [intros [_ H]; exact H|intros H; split; auto].
Qed.

Lemma first_containing_free_prefix (key : string) (pre l : list string) :
  (forall v, In v pre -> Py.contains key v = false) ->
  first_containing key (pre ++ l) =
  (if first_containing key l =? -1 then -1
   else Z.of_nat (length pre) + first_containing key l).
Proof.
  induction pre as [|v pre IH]; intros Hpre; cbn [app first_containing length].
  - pose proof (first_containing_ge key l).
    destruct (Z.eqb_spec (first_containing key l) (-1)); cbv beta iota; lia.
  - rewrite (Hpre v (or_introl eq_refl)).
    rewrite IH by (intros u Hu; apply Hpre; right; exact Hu).
    pose proof (first_containing_ge key l).
    destruct (Z.eqb_spec (first_containing key l) (-1)); cbv beta iota;
      [reflexivity|].
    match goal with |- context [?x =? -1] => destruct (Z.eqb_spec x (-1)) end;
      cbv beta iota; lia.
Qed.

Lemma first_containing_free_suffix (key : string) (l post : list string) :
  (forall v, In v post -> Py.contains key v = false) ->
  first_containing key (l ++ post) = first_containing key l.
Proof.
  intros Hpost. induction l as [|w l IH]; simpl.
  - apply first_containing_none. exact Hpost.
  - rewrite IH. reflexivity.
Qed.

Lemma outOblique_of_true_iff (a b c d : Z) :
  outOblique_of a b c d = true <->
  (a <> -1 /\ b <> -1 /\ c <> -1 /\ d <> -1) /\
  ~ (a <> -1 /\ a < b < c /\ d = c + 1) /\
  ~ (d <> -1 /\ d < b < a /\ c = d + 1).
Proof.
  rewrite <- condA_true, <- condB_true, <- allPresent_true.
  unfold outOblique_of.
  destruct (condA a b c d), (condB a b c d), (allPresent a b c d);
    intuition congruence.
Qed.

(** Moving every present marker by the same offset. *)
Definition shift (m x : Z) : Z := if x =? -1 then -1 else m + x.

Lemma outOblique_of_shift (m a b c d : Z) :
  0 <= m -> -1 <= a -> -1 <= b -> -1 <= c -> -1 <= d ->
  outOblique_of (shift m a) (shift m b) (shift m c) (shift m d) =
  outOblique_of a b c d.
Proof.
  intros Hm Ha Hb Hc Hd. apply eq_true_iff_eq.
  rewrite !outOblique_of_true_iff. unfold shift.
  destruct (Z.eqb_spec a (-1)), (Z.eqb_spec b (-1)), (Z.eqb_spec c (-1)),
    (Z.eqb_spec d (-1)); split; intros; lia.
Qed.

(** Tokens that contain none of the markers O1, O2, P, O3, added before
    or after a sentence's tokens, leave its [outOblique] flag unchanged:
    absent markers stay at -1 and present ones all move by the same
    offset. *)
Theorem outOblique_marker_free_context (lang infl str str' : string)
    (pre post : list string)
    (Hsplit : Py.split str' = pre ++ Py.split str ++ post)
    (Hfree : forall w key, In w (pre ++ post) ->
       In key ["O1"; "O2"; "P"; "O3"]%string -> Py.contains key w = false) :
  exists s s', init (lang, infl, str) = Some s /\
    init (lang, infl, str') = Some s' /\ outOblique s' = outOblique s.
Proof.
  do 2 eexists. rewrite !init_spec. split; [reflexivity|]. split; [reflexivity|].
  unfold outOblique. simpl. rewrite Hsplit.
  assert (Hk : forall key, In key ["O1"; "O2"; "P"; "O3"]%string ->
    first_containing key (pre ++ Py.split str ++ post) =
    shift (Z.of_nat (length pre)) (first_containing key (Py.split str))).
  { intros key Hkey.
    rewrite first_containing_free_prefix
      by (intros v Hv; apply Hfree; [apply in_or_app; left|]; assumption).
    rewrite first_containing_free_suffix
      by (intros v Hv; apply Hfree; [apply in_or_app; right|]; assumption).
    reflexivity. }
  rewrite !Hk by (simpl; tauto).
  apply outOblique_of_shift; [lia|apply first_containing_ge..].
Qed.

Lemma outOblique_marker_free_context_witness :
  exists s s', init ("611", "DEC", "O2 O1 P O3")%string = Some s /\
    init ("611", "DEC", "Adv O2 O1 P O3 Verb")%string = Some s' /\
    outOblique s' = outOblique s.
Proof.
  apply (outOblique_marker_free_context "611" "DEC" "O2 O1 P O3"
           "Adv O2 O1 P O3 Verb" ["Adv"%string] ["Verb"%string]).
  - reflexivity.
  - intros w key Hw Hkey. simpl in Hw, Hkey.
    destruct Hw as [<-|[<-|[]]]; destruct Hkey as [<-|[<-|[<-|[<-|[]]]]];
      reflexivity.
Defined.

End TokenFacts.

(* ------------------------------------------------------------------ *)
(** ** Further properties of a trial *)

Module TrialExtraFacts.
Import Main TrialFacts.

Section Run.
Context {World Child : Type} `{Runtime World} `{Domain World} `{Learner Child}.

Lemma run_child_loop_consumes (lang : Z) (noise : Q) (n : nat) (aChild c : Child)
    (st : St World) :
  fst (run_child_loop lang noise n aChild st) = Ok c ->
  exists ss, length ss = n /\ c = fold_left consumeSentence ss aChild /\
    length (calls (snd (run_child_loop lang noise n aChild st))) =
      (length (calls st) + n)%nat.
Proof.
  revert aChild st. induction n as [|n IH]; intros aChild st Hc.
  - simpl in Hc |- *. injection Hc as <-. exists []. split; [reflexivity|].
    split; [reflexivity|lia].
  - simpl in Hc |- *. unfold bind, py_random in Hc |- *. simpl in Hc |- *.
    destruct (random (world st)) as [u w]. simpl in Hc |- *.
    destruct (Qltb u noise); unfold DOMAIN_get_sentence_not_in_language,
      DOMAIN_get_sentence_in_language, domain_call in Hc |- *; simpl in Hc |- *.
    + destruct (get_sentence_not_in_language lang w) as [[s|e] w'];
        [|discriminate].
      destruct (IH _ _ Hc) as [ss [Hl [Hf Hn]]].
      exists (s :: ss). simpl. split; [lia|]. split; [exact Hf|].
      rewrite Hn. simpl. rewrite length_app. simpl. lia.
    + destruct (get_sentence_in_language lang w) as [[s|e] w'];
        [|discriminate].
      destruct (IH _ _ Hc) as [ss [Hl [Hf Hn]]].
      exists (s :: ss). simpl. split; [lia|]. split; [exact Hf|].
      rewrite Hn. simpl. rewrite length_app. simpl. lia.
Qed.

End Run.

(** [run_child]: when it completes, the learner it returns is the fresh
    [InstrumentedNDChild(rate, conservativerate, language)] after
    consuming exactly [numberofsentences] sentences in turn (none when
    the count is negative), and exactly that many [DOMAIN] sampling calls
    were made. *)
Theorem run_child_consumes {World Child : Type}
    `{Runtime World} `{Domain World} `{Learner Child}
    (language : Z) (noise rate conservativerate : Q) (numberofsentences : Z)
    (st : St World) (c : Child)
    (Hok : fst (run_child language noise rate conservativerate numberofsentences st) = Ok c) :
  exists ss, length ss = Z.to_nat numberofsentences /\
    c = fold_left consumeSentence ss (InstrumentedNDChild rate conservativerate language) /\
    length (calls (snd (run_child language noise rate conservativerate
                          numberofsentences st))) =
      (length (calls st) + Z.to_nat numberofsentences)%nat.
Proof.
  unfold run_child in *. apply run_child_loop_consumes. exact Hok.
Qed.

Lemma run_child_consumes_witness :
  exists ss, length ss = 4%nat /\
    4%nat = fold_left (@consumeSentence nat (Doubles.learner_resolving_to English)) ss O /\
    length (calls (snd (@run_child nat nat (Doubles.const_runtime (1 # 2))
       Doubles.serving_domain (Doubles.learner_resolving_to English)
       English (1 # 4) (9 # 10) (5 # 10000) 4 (mkSt O [])))) = (0 + 4)%nat.
Proof.
  apply (@run_child_consumes nat nat (Doubles.const_runtime (1 # 2))
    Doubles.serving_domain (Doubles.learner_resolving_to English)
    English (1 # 4) (9 # 10) (5 # 10000) 4 (mkSt O []) 4%nat).
  vm_compute. reflexivity.
Defined.

(** With every [random()] value in [0,1), a noise level of 1 or more
    sends every sampling call of [run_child] to the not-in-language
    sampler, and a noise level of 0 or less sends every one to the
    in-language sampler: out-of-range levels act as 1 and 0. *)
Theorem run_child_noise_out_of_range {World Child : Type}
    `{Runtime World} `{Domain World} `{Learner Child}
    (Hrand : forall w, (0 <= fst (random w))%Q /\ (fst (random w) < 1)%Q)
    (language : Z) (noise rate conservativerate : Q) (k : Z) (st : St World) :
  ((1 <= noise)%Q ->
   exists new,
     calls (snd (run_child language noise rate conservativerate k st)) = calls st ++ new /\
     Forall (eq (CallNotInLanguage language)) new) /\
  ((noise <= 0)%Q ->
   exists new,
     calls (snd (run_child language noise rate conservativerate k st)) = calls st ++ new /\
     Forall (eq (CallInLanguage language)) new).
Proof.
  unfold run_child. split; intros Hn.
  - destruct (run_child_loop_path language noise true
      ltac:(intros w; apply Qltb_iff; apply Qlt_le_trans with (1 # 1);
            [apply (Hrand w)|exact Hn])
      (Z.to_nat k) (InstrumentedNDChild rate conservativerate language) st)
      as [new [Hc [Hf _]]].
    exists new. split; assumption.
  - destruct (run_child_loop_path language noise false
      ltac:(intros w; destruct (Qltb (fst (random w)) noise) eqn:E; [|reflexivity];
            apply Qltb_iff in E; exfalso; apply (Qlt_not_le _ _ E);
            apply Qle_trans with (0 # 1); [exact Hn|apply (Hrand w)])
      (Z.to_nat k) (InstrumentedNDChild rate conservativerate language) st)
      as [new [Hc [Hf _]]].
    exists new. split; assumption.
Qed.

Lemma run_child_noise_out_of_range_witness :
  exists new,
    calls (snd (@run_child nat nat (Doubles.const_runtime (1 # 2))
      Doubles.serving_domain (Doubles.learner_resolving_to English)
      English (3 # 2) (9 # 10) (5 # 10000) 5 (mkSt O []))) = [] ++ new /\
    Forall (eq (CallNotInLanguage English)) new.
Proof.
  apply (proj1 (@run_child_noise_out_of_range nat nat (Doubles.const_runtime (1 # 2))
    Doubles.serving_domain (Doubles.learner_resolving_to English)
    ltac:(intros w; simpl; unfold Qle, Qlt; simpl; lia)
    English (3 # 2) (9 # 10) (5 # 10000) 5 (mkSt O []))).
  unfold Qle. simpl. lia.
Defined.

End TrialExtraFacts.

(* ------------------------------------------------------------------ *)
(** ** The result record of a trial *)

Module ResultFacts.
Import Main TrialFacts.

Lemma dict_get_app (l1 l2 : dict) (k : string) :
  dict_get (l1 ++ l2) k =
  match dict_get l1 k with Some v => Some v | None => dict_get l2 k end.
Proof.
  induction l1 as [|[k' v'] l1 IH]; simpl; [reflexivity|].
  destruct (String.eqb k' k); [reflexivity|exact IH].
Qed.

(** After [{**d, **e}], a key has its last value in [e], else its value
    in [d]. *)
Lemma dict_get_update (d e : dict) (k : string) :
  dict_get (dict_update d e) k =
  match dict_get (rev e) k with Some v => Some v | None => dict_get d k end.
Proof.
  revert d. induction e as [|[k' v'] e IH]; intros d; simpl; [reflexivity|].
  unfold dict_update in IH |- *. simpl. rewrite IH, dict_get_app, dict_get_set.
  simpl. destruct (dict_get (rev e) k); [reflexivity|].
  destruct (String.eqb k' k); reflexivity.
Qed.


(** Looking a key up in the record a completed [run_trial] returns: the
    [TrialParameters] fields come first (they are spread last), then the
    learner's final grammar weights, then ['timestamp'] (the clock read
    after the sentence loop), ['duration'] (that reading minus the one
    taken before the learner was built) and ['language'] (the learner's
    [target_language]). [dict_get (rev g) k] is the last entry for [k] in
    [g], as in Python. *)
Theorem run_trial_result_lookup {World Child : Type}
    `{Runtime World} `{Domain World} `{Learner Child}
    (params : TrialParameters) (st : St World) (d : dict)
    (Hok : fst (run_trial params st) = Ok d) :
  exists t0 w0 c st1 t1,
    datetime_now (world st) = (t0, w0) /\
    run_child (language params) (noise params) (rate params)
      (conservativerate params) (numberofsentences params)
      (mkSt w0 (calls st)) = (Ok c, st1) /\
    fst (datetime_now (world st1)) = t1 /\
    forall k, dict_get d k =
      match dict_get (asdict params) k with
      | Some v => Some v
      | None =>
          match dict_get (rev (grammar c)) k with
          | Some v => Some v
          | None =>
              dict_get [("timestamp", PDatetime t1); ("duration", PTimedelta (t1 - t0));
                        ("language", target_language c)]%string k
          end
      end.
Proof.
  revert Hok. unfold run_trial, bind, py_now, ret.
  destruct (datetime_now (world st)) as [t0 w0] eqn:E0. cbv beta iota zeta.
  destruct (run_child (language params) (noise params) (rate params)
              (conservativerate params) (numberofsentences params)
              {| world := w0; calls := calls st |}) as [[c|e] st1] eqn:Ec;
    [|discriminate].
  destruct (datetime_now (world st1)) as [t1 w1] eqn:E1. cbv beta iota zeta.
  intros Hd. injection Hd as <-.
  exists t0, w0, c, st1, t1.
  split; [reflexivity|]. split; [exact Ec|]. split; [rewrite E1; reflexivity|].
  intros k. rewrite !dict_get_set, dict_get_update.
  unfold asdict. cbn [dict_get].
  destruct (String.eqb_spec "numberofsentences" k) as [<-|]; [reflexivity|].
  destruct (String.eqb_spec "conservativerate" k) as [<-|]; [reflexivity|].
  destruct (String.eqb_spec "rate" k) as [<-|]; [reflexivity|].
  destruct (String.eqb_spec "noise" k) as [<-|]; [reflexivity|].
  destruct (String.eqb_spec "language" k) as [<-|]; [reflexivity|].
  destruct (dict_get (rev (grammar c)) k); reflexivity.
Qed.

Lemma run_trial_result_lookup_witness :
  exists t0 w0 c st1 t1,
    @datetime_now nat (Doubles.const_runtime (1 # 2)) O = (t0, w0) /\
    @run_child nat nat (Doubles.const_runtime (1 # 2)) Doubles.serving_domain
      (Doubles.learner_resolving_to French) English (1 # 4) (9 # 10) (5 # 10000) 2
      (mkSt w0 []) = (Ok c, st1) /\
    fst (@datetime_now nat (Doubles.const_runtime (1 # 2)) (world st1)) = t1 /\
    forall k, dict_get
      [("timestamp", PDatetime 3); ("duration", PTimedelta 3);
       ("language", PInt English); ("SP", PFloat (2 # 1)); ("noise", PFloat (1 # 4));
       ("rate", PFloat (9 # 10)); ("conservativerate", PFloat (5 # 10000));
       ("numberofsentences", PInt 2)]%string k =
      match dict_get (asdict (mkTrialParameters English (1 # 4) (9 # 10) (5 # 10000) 2)) k with
      | Some v => Some v
      | None =>
          match dict_get (rev (@grammar nat (Doubles.learner_resolving_to French) c)) k with
          | Some v => Some v
          | None =>
              dict_get [("timestamp", PDatetime t1); ("duration", PTimedelta (t1 - t0));
                        ("language", @target_language nat (Doubles.learner_resolving_to French) c)]%string k
          end
      end.
Proof.
  apply (@run_trial_result_lookup nat nat (Doubles.const_runtime (1 # 2))
    Doubles.serving_domain (Doubles.learner_resolving_to French)
    (mkTrialParameters English (1 # 4) (9 # 10) (5 # 10000) 2) (mkSt O [])).
  vm_compute. reflexivity.
Defined.

End ResultFacts.

(* ------------------------------------------------------------------ *)
(** ** Further properties of the trial generator *)

Module GeneratorExtraFacts.
Import Main GeneratorFacts.

(** [num_trials], the progress-bar total of [run_simulations], is the
    number of trials the generator yields when [num_echildren] is not
    negative; with a negative [num_echildren] the generator yields
    nothing ([range] of it is empty) while the total is zero or
    negative. *)
Theorem num_trials_counts_trials (params : ExperimentParameters) :
  (0 <= num_echildren params ->
   Z.of_nat (length (trials params)) = num_trials params) /\
  (num_echildren params < 0 ->
   trials params = [] /\ num_trials params <= 0).
Proof.
  assert (Hlen : length (trials params) =
    (length (languages params) * (length (noise_levels params)
       * Z.to_nat (num_echildren params)))%nat).
  { unfold trials. apply length_flat_map_const. intros lang.
    apply length_flat_map_const. intros q. rewrite length_map, length_seq.
    reflexivity. }
  unfold num_trials. split.
  - intros Hr. rewrite Hlen. rewrite !Nat2Z.inj_mul, Z2Nat.id by exact Hr. ring.
  - intros Hr. split.
    + apply length_zero_iff_nil. rewrite Hlen.
      replace (Z.to_nat (num_echildren params)) with O by lia. lia.
    + assert (0 <= Z.of_nat (length (languages params))) by lia.
      assert (0 <= Z.of_nat (length (noise_levels params))) by lia.
      assert (0 <= Z.of_nat (length (languages params))
                   * Z.of_nat (length (noise_levels params))) by nia.
      nia.
Qed.

Lemma num_trials_counts_trials_witness :
  Z.of_nat (length (trials (mkExperimentParameters [English; French]
    [0 # 1; 1 # 2] (9 # 10) (5 # 10000) 10 3 2))) = 12 /\
  trials (mkExperimentParameters [English; French] [0 # 1; 1 # 2]
    (9 # 10) (5 # 10000) 10 (-3) 2) = [] /\
  num_trials (mkExperimentParameters [English; French] [0 # 1; 1 # 2]
    (9 # 10) (5 # 10000) 10 (-3) 2) <= 0.
Proof.
  split.
  - apply (proj1 (num_trials_counts_trials (mkExperimentParameters [English; French]
      [0 # 1; 1 # 2] (9 # 10) (5 # 10000) 10 3 2))). simpl. lia.
  - apply (proj2 (num_trials_counts_trials (mkExperimentParameters [English; French]
      [0 # 1; 1 # 2] (9 # 10) (5 # 10000) 10 (-3) 2))). simpl. lia.
Defined.

(** The generator yields a trial exactly when its grammar is one of the
    experiment's languages, its noise one of the experiment's noise
    levels, [num_echildren] is positive, and its learning rate,
    conservative rate and sentence count are the experiment's. *)
Theorem trials_in_iff (params : ExperimentParameters) (t : TrialParameters) :
  In t (trials params) <->
  In (language t) (languages params) /\ In (noise t) (noise_levels params) /\
  0 < num_echildren params /\
  rate t = learningrate params /\
  conservativerate t = conservative_learningrate params /\
  numberofsentences t = num_sentences params.
Proof.
  unfold trials. rewrite in_flat_map. split.
  - intros [lang [Hl Ht]]. apply in_flat_map in Ht as [q [Hq Ht]].
    apply in_map_iff in Ht as [i [<- Hi]]. apply in_seq in Hi. simpl.
    repeat split; auto. lia.
  - destruct t as [lang q r cr ns]; simpl.
    intros [Hl [Hq [Hr [-> [-> ->]]]]].
    exists lang. split; [exact Hl|]. apply in_flat_map. exists q.
    split; [exact Hq|]. apply in_map_iff. exists O. split; [reflexivity|].
    apply in_seq. lia.
Qed.

End GeneratorExtraFacts.
